(** * Tabular Islamic calendar: SDN conversion (ext/calendar/tabislamic.c)

    A shallow embedding of [SdnToTabIslamic], [getYearInCycle], [getMonth],
    [TabIslamicToSdn] and the table [TabIslamicMonthName], followed by the
    properties of the conversion.

    Conventions of the embedding.
    - A C integer is a [Z].  Signed arithmetic on [zend_long] that leaves the
      range of the type is undefined in C: the operations below return [None]
      there.  Storing a [zend_long] into an [int] is a narrowing conversion
      and wraps modulo [2^32].
    - An array is a [list]; a read outside its bounds is undefined in C and
      returns [None].
    - The three [int *] output parameters of [SdnToTabIslamic] become the
      triple [(year, month, day)] that the function returns. *)

From Stdlib Require Import ZArith List String Bool Lia.
Import ListNotations.
Local Open Scope Z_scope.

(** ** The option monad of undefined behaviour *)

Definition bind {A B : Type} (m : option A) (k : A -> option B) : option B :=
  match m with
  | Some a => k a
  | None => None
  end.

Notation "x <- m ;; k" := (bind m (fun x => k))
  (at level 61, m at next level, right associativity).

(** ** C integers *)

Module CInt.

(** Two's complement value of [x] on [width] bits. *)
Definition swrap (width x : Z) : Z :=
  (x + 2 ^ (width - 1)) mod 2 ^ width - 2 ^ (width - 1).

Definition INT_MAX : Z := 2147483647.
Definition INT_MIN : Z := -2147483648.
Definition UINT_MODULUS : Z := 4294967296.

(** Conversion of a wider signed value to [int]. *)
Definition to_int (x : Z) : Z := swrap 32 x.

(** [i + 1] on [unsigned int]. *)
Definition uint_add (a b : Z) : Z := (a + b) mod UINT_MODULUS.

(** [a[i]]: defined only inside the array. *)
Definition aget {A : Type} (a : list A) (i : Z) : option A :=
  if i <? 0 then None else nth_error a (Z.to_nat i).

End CInt.
Import CInt.

(** ** [zend_long]

    The type is declared in the Zend headers, not in this file: it is
    [int32_t] or [int64_t] depending on the platform.  Its width is a
    parameter of the development. *)

Section ZendLong.

Variable zl_bits : Z.

Definition ZEND_LONG_MAX : Z := 2 ^ (zl_bits - 1) - 1.
Definition ZEND_LONG_MIN : Z := - 2 ^ (zl_bits - 1).

Definition zl_ok (x : Z) : option Z :=
  if (ZEND_LONG_MIN <=? x) && (x <=? ZEND_LONG_MAX) then Some x else None.

Definition zl_add (a b : Z) : option Z := zl_ok (a + b).
Definition zl_sub (a b : Z) : option Z := zl_ok (a - b).
Definition zl_mul (a b : Z) : option Z := zl_ok (a * b).

(** C division truncates toward zero. *)
Definition zl_div (a b : Z) : option Z :=
  if b =? 0 then None else zl_ok (Z.quot a b).

End ZendLong.

(** ** Constants and tables *)

Definition ISLAMIC_SDN_OFFSET : Z := 1948440.
Definition CALENDAR_CYCLE_YEARS : Z := 30.
Definition DAYS_PER_30_YEARS : Z := 10631.

Definition yearEndDays : list Z :=
  [354; 709; 1063; 1417; 1772; 2126; 2481; 2835; 3189; 3544; 3898; 4252;
   4607; 4961; 5315; 5670; 6024; 6379; 6733; 7087; 7442; 7796; 8150; 8505;
   8859; 9214; 9568; 9922; 10277; 10631].

Definition monthEndDays : list Z :=
  [30; 59; 89; 118; 148; 177; 207; 236; 266; 295; 325; 355].

Definition TabIslamicMonthName : list string :=
  [""%string; "Vendemiaire"%string; "Brumaire"%string; "Frimaire"%string;
   "Nivose"%string; "Pluviose"%string; "Ventose"%string; "Germinal"%string;
   "Floreal"%string; "Prairial"%string; "Messidor"%string;
   "Fructidor"%string; "Extra"%string].

(** ** The two table scans *)

(** [for (i = 0; i < CALENDAR_CYCLE_YEARS; i++)]: [n] is the number of
    iterations still to run and [i] the loop counter.  Falling out of the
    loop returns the defensive [0]. *)
Fixpoint getYearInCycle_loop (n : nat) (i dayInCycle : Z)
    (yearEndDays : list Z) : option Z :=
  match n with
  | O => Some 0
  | S n' =>
      e <- aget yearEndDays i ;;
      if dayInCycle <? e then Some (uint_add i 1)
      else getYearInCycle_loop n' (uint_add i 1) dayInCycle yearEndDays
  end.

Definition getYearInCycle (dayInCycle : Z) (yearEndDays : list Z) : option Z :=
  getYearInCycle_loop (Z.to_nat CALENDAR_CYCLE_YEARS) 0 dayInCycle yearEndDays.

(** [for (i = 0; i < 12; i++)]. *)
Fixpoint getMonth_loop (n : nat) (i dayInYear : Z)
    (monthEndDays : list Z) : option Z :=
  match n with
  | O => Some 0
  | S n' =>
      e <- aget monthEndDays i ;;
      if dayInYear <? e then Some (uint_add i 1)
      else getMonth_loop n' (uint_add i 1) dayInYear monthEndDays
  end.

Definition getMonth (dayInYear : Z) (monthEndDays : list Z) : option Z :=
  getMonth_loop 12 0 dayInYear monthEndDays.

(** ** The conversions *)

Section Conversions.

Variable zl_bits : Z.

(** Lines 142-146: the cumulative total through the previous year. *)
Definition yearBaseDay (yearInCycle : Z) : option Z :=
  if yearInCycle =? 1 then Some 0
  else (k <- zl_sub zl_bits yearInCycle 2 ;; aget yearEndDays k).

(** Lines 152-156: the cumulative total through the previous month. *)
Definition monthBaseDay (monthInYear : Z) : option Z :=
  if monthInYear =? 1 then Some 0
  else (k <- zl_sub zl_bits monthInYear 2 ;; aget monthEndDays k).

Definition SdnToTabIslamic (sdn : Z) : option (Z * Z * Z) :=
  if sdn <? ISLAMIC_SDN_OFFSET then Some (0, 0, 0)
  else
    offsetJulianDay <- zl_sub zl_bits sdn ISLAMIC_SDN_OFFSET ;;
    cycleNum <- zl_div zl_bits offsetJulianDay DAYS_PER_30_YEARS ;;
    cycleDays <- zl_mul zl_bits cycleNum DAYS_PER_30_YEARS ;;
    dayInCycle <- zl_sub zl_bits offsetJulianDay cycleDays ;;
    yearInCycle <- getYearInCycle dayInCycle yearEndDays ;;
    cycleYears <- zl_mul zl_bits cycleNum 30 ;;
    year <- zl_add zl_bits cycleYears yearInCycle ;;
    let pYear := to_int year in
    yearBase <- yearBaseDay yearInCycle ;;
    dayInYear <- zl_sub zl_bits dayInCycle yearBase ;;
    monthInYear <- getMonth dayInYear monthEndDays ;;
    let pMonth := to_int monthInYear in
    monthBase <- monthBaseDay monthInYear ;;
    dayOffset <- zl_sub zl_bits dayInYear monthBase ;;
    dayInMonth <- zl_add zl_bits dayOffset 1 ;;
    let pDay := to_int dayInMonth in
    Some (pYear, pMonth, pDay).

End Conversions.

(** The body is [return 0;]. *)
Definition TabIslamicToSdn (year month day : Z) : Z := 0.

(** ** Vocabulary of the specification *)

(** [k] is the smallest 0-based index with [d < tbl[k]]. *)
Definition smallest_index (d : Z) (tbl : list Z) (k : nat) : Prop :=
  (exists e, nth_error tbl k = Some e /\ d < e) /\
  (forall j e, (j < k)%nat -> nth_error tbl j = Some e -> e <= d).

(** The same index, computed by the ascending scan the specification
    describes. *)
Fixpoint first_index (d : Z) (tbl : list Z) : option nat :=
  match tbl with
  | [] => None
  | e :: rest =>
      if d <? e then Some O else option_map S (first_index d rest)
  end.

(** Cumulative total before the 0-based position [k]: [0] for the first
    position, the previous entry otherwise. *)
Definition table_base (tbl : list Z) (k : nat) : Z :=
  match k with
  | O => 0
  | S j => nth j tbl 0
  end.

(** The same total, addressed by the 1-based position [pos]: [0] if
    [pos = 1], else [tbl[pos - 2]]. *)
Definition baseDay (tbl : list Z) (pos : Z) : Z :=
  if pos =? 1 then 0 else nth (Z.to_nat (pos - 2)) tbl 0.

(** Span of the 1-based position [pos]: the difference of consecutive
    entries, the entry before the first one being [0]. *)
Definition tableSpan (tbl : list Z) (pos : Z) : option Z :=
  e <- aget tbl (pos - 1) ;;
  b <- (if pos =? 1 then Some 0 else aget tbl (pos - 2)) ;;
  Some (e - b).

Definition yearSpan : Z -> option Z := tableSpan yearEndDays.
Definition monthSpan : Z -> option Z := tableSpan monthEndDays.

(** Leap positions of the 30-year cycle as the table has them. *)
Definition leapYearsInCycle : list Z :=
  [2; 5; 7; 10; 13; 16; 18; 21; 24; 26; 29].

Definition isLeapPosition (pos : Z) : bool :=
  existsb (Z.eqb pos) leapYearsInCycle.

(** Number of days of a year of [yearLength] days that [getMonth] places in
    month [m]. *)
Definition daysInMonth (yearLength : nat) (m : Z) : nat :=
  List.length
    (filter
       (fun d =>
          match getMonth (Z.of_nat d) monthEndDays with
          | Some r => r =? m
          | None => false
          end)
       (seq 0 yearLength)).

(** Calendar ordering: year, then month, then day. *)
Definition earlier (a b : Z * Z * Z) : Prop :=
  let '(y1, m1, d1) := a in
  let '(y2, m2, d2) := b in
  y1 < y2 \/ (y1 = y2 /\ (m1 < m2 \/ (m1 = m2 /\ d1 < d2))).

(** The last SDN whose year number still fits the [int] output: year
    [INT_MAX] is position 7 of cycle 71582788 and ends on day 2480 of that
    cycle. *)
Definition LAST_SDN : Z :=
  ISLAMIC_SDN_OFFSET + 71582788 * DAYS_PER_30_YEARS + 2480.

(** [sdn] is a [zend_long] at or after the epoch whose year is
    representable. *)
Definition supported (zl_bits sdn : Z) : Prop :=
  ISLAMIC_SDN_OFFSET <= sdn /\ sdn <= ZEND_LONG_MAX zl_bits /\ sdn <= LAST_SDN.

(** ** Vocabulary of the calendar *)

(** Position of [year] in its 30-year cycle, from 1 to 30. *)
Definition yearPosition (year : Z) : Z := (year - 1) mod 30 + 1.

(** Days of month [month]: 30 and 29 in turn, the 12th month having its
    30th day in leap years only. *)
Definition monthDays (leap : bool) (month : Z) : Z :=
  if month =? 12 then (if leap then 30 else 29)
  else if Z.odd month then 30 else 29.

Definition monthLength (year month : Z) : Z :=
  monthDays (isLeapPosition (yearPosition year)) month.

(** A date of the tabular Islamic calendar. *)
Definition validDate (date : Z * Z * Z) : Prop :=
  let '(year, month, day) := date in
  1 <= year /\ 1 <= month <= 12 /\ 1 <= day <= monthLength year month.

(** The day number a date stands for: the epoch, the whole cycles before
    the year, the years before it in its cycle, the months before the
    month and the days before the day. *)
Definition dateToDayNumber (year month day : Z) : Z :=
  ISLAMIC_SDN_OFFSET
  + (year - 1) / 30 * DAYS_PER_30_YEARS
  + baseDay yearEndDays (yearPosition year)
  + baseDay monthEndDays month
  + (day - 1).

(** The date of the following day. *)
Definition nextDate (date : Z * Z * Z) : Z * Z * Z :=
  let '(year, month, day) := date in
  if day <? monthLength year month then (year, month, day + 1)
  else if month <? 12 then (year, month + 1, 1)
  else (year + 1, 1, 1).

(** What the ascending scan of the first [n] entries returns: the 1-based
    position of the first entry above [d], the defensive 0 when [n]
    entries are there and none is above [d], and nothing when the scan
    runs off the end of the table. *)
Definition scanResult (n : nat) (d : Z) (tbl : list Z) : option Z :=
  match first_index d (firstn n tbl) with
  | Some k => Some (Z.of_nat k + 1)
  | None => if (n <=? List.length tbl)%nat then Some 0 else None
  end.

(** * Properties *)

Lemma bind_some {A B : Type} (a : A) (k : A -> option B) :
  bind (Some a) k = k a.
Proof. reflexivity. Qed.

(** ** Integer ranges *)

Lemma pow_zl_bits (zl_bits : Z) :
  32 <= zl_bits -> 2147483648 <= 2 ^ (zl_bits - 1).
Proof.
  intros Hb. change 2147483648 with (2 ^ 31).
  apply Z.pow_le_mono_r; lia.
Qed.

Lemma zl_ok_range (zl_bits x : Z) :
  ZEND_LONG_MIN zl_bits <= x <= ZEND_LONG_MAX zl_bits ->
  zl_ok zl_bits x = Some x.
Proof.
  intros [Hlo Hhi]. unfold zl_ok.
  apply Z.leb_le in Hlo. apply Z.leb_le in Hhi.
  rewrite Hlo, Hhi. reflexivity.
Qed.

Lemma zl_ok_int (zl_bits x : Z) :
  32 <= zl_bits -> INT_MIN <= x <= INT_MAX -> zl_ok zl_bits x = Some x.
Proof.
  intros Hb Hx. apply zl_ok_range.
  pose proof (pow_zl_bits zl_bits Hb).
  unfold ZEND_LONG_MIN, ZEND_LONG_MAX, INT_MIN, INT_MAX in *. lia.
Qed.

Lemma to_int_small (x : Z) : INT_MIN <= x <= INT_MAX -> to_int x = x.
Proof.
  intros Hx. unfold to_int, swrap, INT_MIN, INT_MAX in *.
  change (2 ^ (32 - 1)) with 2147483648.
  change (2 ^ 32) with 4294967296.
  rewrite Z.mod_small; lia.
Qed.

Lemma uint_add_small (a b : Z) :
  0 <= a + b < UINT_MODULUS -> uint_add a b = a + b.
Proof. intros H. unfold uint_add. apply Z.mod_small. exact H. Qed.

Lemma aget_nat {A : Type} (a : list A) (i : nat) :
  aget a (Z.of_nat i) = nth_error a i.
Proof.
  unfold aget.
  destruct (Z.ltb_spec (Z.of_nat i) 0) as [H | _]; [lia |].
  rewrite Nat2Z.id. reflexivity.
Qed.

(** ** The scans find the smallest index *)

Lemma first_index_smallest (d : Z) (tbl : list Z) (k : nat) :
  first_index d tbl = Some k <-> smallest_index d tbl k.
Proof.
  revert k. induction tbl as [| e rest IH]; intros k; simpl.
  - split; [discriminate |].
    intros [[x [Hx _]] _]. destruct k; discriminate.
  - destruct (Z.ltb_spec d e) as [Hlt | Hge].
    + split.
      * intros Hk. injection Hk as <-. split.
        -- exists e. split; [reflexivity | exact Hlt].
        -- intros j x Hj. lia.
      * intros [_ Hmin]. destruct k as [| k']; [reflexivity |].
        specialize (Hmin O e (Nat.lt_0_succ k') eq_refl). lia.
    + destruct k as [| k'].
      * split.
        -- destruct (first_index d rest); discriminate.
        -- intros [[x [Hx Hdx]] _]. simpl in Hx. injection Hx as <-. lia.
      * specialize (IH k'). split.
        -- destruct (first_index d rest) as [r |] eqn:Hr; [| discriminate].
           simpl. intros Hk. injection Hk as ->.
           destruct IH as [IH _]. destruct (IH eq_refl) as [Hfound Hmin].
           split; [exact Hfound |].
           intros [| j] x Hj Hx; simpl in Hx.
           ++ injection Hx as <-. exact Hge.
           ++ apply (Hmin j); [lia | exact Hx].
        -- intros [Hfound Hmin]. destruct IH as [_ IH].
           rewrite IH; [reflexivity |].
           split; [exact Hfound |].
           intros j x Hj Hx. apply (Hmin (S j)); [lia | exact Hx].
Qed.

Lemma first_index_exists (d : Z) (tbl : list Z) (j : nat) (e : Z) :
  nth_error tbl j = Some e -> d < e ->
  exists k, first_index d tbl = Some k /\ (k <= j)%nat.
Proof.
  revert j. induction tbl as [| x rest IH]; intros j Hj Hd.
  - destruct j; discriminate.
  - simpl. destruct (Z.ltb_spec d x) as [Hlt | Hge].
    + exists O. split; [reflexivity | lia].
    + destruct j as [| j']; simpl in Hj.
      * injection Hj as ->. lia.
      * destruct (IH j' Hj Hd) as [k [Hk Hle]].
        exists (S k). rewrite Hk. split; [reflexivity | lia].
Qed.

Lemma smallest_index_lt_length (d : Z) (tbl : list Z) (k : nat) :
  smallest_index d tbl k -> (k < List.length tbl)%nat.
Proof.
  intros [[e [He _]] _]. apply nth_error_Some. rewrite He. discriminate.
Qed.

Lemma smallest_index_mono (d1 d2 : Z) (tbl : list Z) (k1 k2 : nat) :
  d1 <= d2 -> smallest_index d1 tbl k1 -> smallest_index d2 tbl k2 ->
  (k1 <= k2)%nat.
Proof.
  intros Hd [_ Hmin1] [[e [He Hde]] _].
  destruct (Nat.le_gt_cases k1 k2) as [Hle | Hgt]; [exact Hle |].
  specialize (Hmin1 k2 e Hgt He). lia.
Qed.

Lemma smallest_index_base (d : Z) (tbl : list Z) (k : nat) :
  0 <= d -> smallest_index d tbl k ->
  table_base tbl k <= d /\ d < nth k tbl 0.
Proof.
  intros Hd [[e [He Hde]] Hmin]. split.
  - destruct k as [| j]; simpl; [exact Hd |].
    assert (Hj : (j < List.length tbl)%nat).
    { assert (S j < List.length tbl)%nat
        by (apply nth_error_Some; rewrite He; discriminate).
      lia. }
    apply (Hmin j); [lia |]. apply nth_error_nth'. exact Hj.
  - rewrite (nth_error_nth tbl k 0 He). exact Hde.
Qed.

Lemma getYearInCycle_loop_finds (tbl : list Z) (d : Z) (k : nat) :
  smallest_index d tbl k ->
  forall (n i : nat),
    (i <= k)%nat -> (k < i + n)%nat -> Z.of_nat (i + n) < UINT_MODULUS ->
    getYearInCycle_loop n (Z.of_nat i) d tbl = Some (Z.of_nat k + 1).
Proof.
  intros Hk n. induction n as [| n IH]; intros i Hik Hkn Hmod; [lia |].
  pose proof (smallest_index_lt_length _ _ _ Hk) as Hlen.
  destruct Hk as [[e [He Hde]] Hmin].
  simpl. rewrite aget_nat.
  assert (Hnext : uint_add (Z.of_nat i) 1 = Z.of_nat (S i)).
  { rewrite uint_add_small; lia. }
  destruct (Nat.eq_dec i k) as [-> | Hne].
  - rewrite He. simpl.
    apply Z.ltb_lt in Hde. rewrite Hde.
    rewrite Hnext. f_equal. lia.
  - assert (Hi : (i < List.length tbl)%nat) by lia.
    rewrite (nth_error_nth' tbl 0 Hi). simpl.
    assert (Hle : nth i tbl 0 <= d).
    { apply (Hmin i); [lia |]. apply nth_error_nth'. exact Hi. }
    apply Z.ltb_ge in Hle. rewrite Hle.
    rewrite Hnext. apply IH; lia.
Qed.

Lemma getMonth_loop_eq (n : nat) (i d : Z) (tbl : list Z) :
  getMonth_loop n i d tbl = getYearInCycle_loop n i d tbl.
Proof.
  revert i. induction n as [| n IH]; intros i; simpl; [reflexivity |].
  destruct (aget tbl i) as [e |]; simpl; [| reflexivity].
  destruct (d <? e); [reflexivity | apply IH].
Qed.

Lemma getYearInCycle_finds (d : Z) (k : nat) :
  smallest_index d yearEndDays k ->
  getYearInCycle d yearEndDays = Some (Z.of_nat k + 1).
Proof.
  intros Hk. pose proof (smallest_index_lt_length _ _ _ Hk) as Hlen.
  change (List.length yearEndDays) with 30%nat in Hlen.
  unfold getYearInCycle.
  apply (getYearInCycle_loop_finds yearEndDays d k Hk _ O);
    change (Z.to_nat CALENDAR_CYCLE_YEARS) with 30%nat;
    unfold UINT_MODULUS; lia.
Qed.

Lemma getMonth_finds (d : Z) (k : nat) :
  smallest_index d monthEndDays k ->
  getMonth d monthEndDays = Some (Z.of_nat k + 1).
Proof.
  intros Hk. pose proof (smallest_index_lt_length _ _ _ Hk) as Hlen.
  change (List.length monthEndDays) with 12%nat in Hlen.
  unfold getMonth. rewrite getMonth_loop_eq.
  apply (getYearInCycle_loop_finds monthEndDays d k Hk _ O);
    unfold UINT_MODULUS; lia.
Qed.

(** ** Facts read off the two tables *)

Tactic Notation "below_cases" integer(n) ident(k) :=
  do n (destruct k as [| k]; [simpl; lia |]); lia.

Lemma yearEndDays_spans (k : nat) :
  (k < 30)%nat ->
  0 <= table_base yearEndDays k /\
  354 <= nth k yearEndDays 0 - table_base yearEndDays k <= 355 /\
  nth k yearEndDays 0 <= 10631.
Proof. intros Hk. below_cases 30 k. Qed.

Lemma monthEndDays_spans (k : nat) :
  (k < 12)%nat ->
  0 <= table_base monthEndDays k <= 325 /\
  29 <= nth k monthEndDays 0 - table_base monthEndDays k <= 30.
Proof. intros Hk. below_cases 12 k. Qed.

Lemma yearBaseDay_table (zl_bits : Z) (k : nat) :
  32 <= zl_bits -> (k < 30)%nat ->
  yearBaseDay zl_bits (Z.of_nat k + 1) = Some (table_base yearEndDays k).
Proof.
  intros Hb Hk. unfold yearBaseDay.
  destruct k as [| j]; [reflexivity |].
  destruct (Z.eqb_spec (Z.of_nat (S j) + 1) 1) as [H | _]; [lia |].
  unfold zl_sub.
  replace (Z.of_nat (S j) + 1 - 2) with (Z.of_nat j) by lia.
  rewrite zl_ok_int by (unfold INT_MIN, INT_MAX; lia).
  rewrite bind_some, aget_nat. apply nth_error_nth'.
  change (List.length yearEndDays) with 30%nat. lia.
Qed.

Lemma monthBaseDay_table (zl_bits : Z) (k : nat) :
  32 <= zl_bits -> (k < 12)%nat ->
  monthBaseDay zl_bits (Z.of_nat k + 1) = Some (table_base monthEndDays k).
Proof.
  intros Hb Hk. unfold monthBaseDay.
  destruct k as [| j]; [reflexivity |].
  destruct (Z.eqb_spec (Z.of_nat (S j) + 1) 1) as [H | _]; [lia |].
  unfold zl_sub.
  replace (Z.of_nat (S j) + 1 - 2) with (Z.of_nat j) by lia.
  rewrite zl_ok_int by (unfold INT_MIN, INT_MAX; lia).
  rewrite bind_some, aget_nat. apply nth_error_nth'.
  change (List.length monthEndDays) with 12%nat. lia.
Qed.

(** Every day of a cycle lies in one of its 30 years, at a day offset below
    355. *)
Lemma year_index_exists (d : Z) :
  0 <= d < 10631 ->
  exists k, smallest_index d yearEndDays k /\ (k < 30)%nat /\
            0 <= d - table_base yearEndDays k < 355.
Proof.
  intros Hd.
  destruct (first_index_exists d yearEndDays 29 10631 eq_refl) as [k [Hk Hle]];
    [lia |].
  apply first_index_smallest in Hk.
  exists k. split; [exact Hk |]. split; [lia |].
  destruct (smallest_index_base d yearEndDays k) as [Hlo Hhi]; [lia | exact Hk |].
  pose proof (yearEndDays_spans k). lia.
Qed.

(** Every day offset below 355 lies in one of the 12 months, at a day
    offset below 30. *)
Lemma month_index_exists (d : Z) :
  0 <= d < 355 ->
  exists k, smallest_index d monthEndDays k /\ (k < 12)%nat /\
            0 <= d - table_base monthEndDays k < 30.
Proof.
  intros Hd.
  destruct (first_index_exists d monthEndDays 11 355 eq_refl) as [k [Hk Hle]];
    [lia |].
  apply first_index_smallest in Hk.
  exists k. split; [exact Hk |]. split; [lia |].
  destruct (smallest_index_base d monthEndDays k) as [Hlo Hhi]; [lia | exact Hk |].
  pose proof (monthEndDays_spans k). lia.
Qed.

(** ** The conversion, step by step *)

(** At or after the epoch no [zend_long] operation overflows and no array
    read leaves its table: the conversion returns the triple built from the
    two smallest indices. *)
Lemma SdnToTabIslamic_run (zl_bits sdn : Z) (ky km : nat) :
  32 <= zl_bits ->
  ISLAMIC_SDN_OFFSET <= sdn <= ZEND_LONG_MAX zl_bits ->
  let offset := sdn - ISLAMIC_SDN_OFFSET in
  let cycleNum := offset / DAYS_PER_30_YEARS in
  let dayInCycle := offset mod DAYS_PER_30_YEARS in
  let dayInYear := dayInCycle - table_base yearEndDays ky in
  smallest_index dayInCycle yearEndDays ky ->
  smallest_index dayInYear monthEndDays km ->
  SdnToTabIslamic zl_bits sdn =
    Some (to_int (cycleNum * 30 + (Z.of_nat ky + 1)),
          Z.of_nat km + 1,
          dayInYear - table_base monthEndDays km + 1).
Proof.
  intros Hb [Hlo Hhi] offset cycleNum dayInCycle dayInYear Hky Hkm.
  cbv delta [ISLAMIC_SDN_OFFSET DAYS_PER_30_YEARS] in *.
  pose proof (pow_zl_bits zl_bits Hb) as Hpow.
  assert (Hoff : 0 <= offset) by (unfold offset; lia).
  assert (Hdiv : offset = 10631 * cycleNum + dayInCycle)
    by (apply Z.div_mod; discriminate).
  assert (Hmod : 0 <= dayInCycle < 10631)
    by (apply Z.mod_pos_bound; reflexivity).
  assert (Hc : 0 <= cycleNum) by (apply Z.div_pos; [exact Hoff | reflexivity]).
  pose proof (smallest_index_lt_length _ _ _ Hky) as Hky30.
  pose proof (smallest_index_lt_length _ _ _ Hkm) as Hkm12.
  change (List.length yearEndDays) with 30%nat in Hky30.
  change (List.length monthEndDays) with 12%nat in Hkm12.
  pose proof (yearEndDays_spans ky Hky30) as Hys.
  pose proof (monthEndDays_spans km Hkm12) as Hms.
  assert (HoffMax : offset <= ZEND_LONG_MAX zl_bits) by (unfold offset; lia).
  assert (Hmin : ZEND_LONG_MIN zl_bits <= -2147483648)
    by (unfold ZEND_LONG_MIN; lia).
  assert (Hmax : 2147483647 <= ZEND_LONG_MAX zl_bits)
    by (unfold ZEND_LONG_MAX; lia).
  unfold SdnToTabIslamic, ISLAMIC_SDN_OFFSET, DAYS_PER_30_YEARS.
  destruct (Z.ltb_spec sdn 1948440) as [H | _]; [lia |].
  unfold zl_sub at 1. fold offset.
  rewrite zl_ok_range by lia. rewrite bind_some.
  unfold zl_div. change (10631 =? 0) with false. cbv iota.
  rewrite Z.quot_div_nonneg by lia. fold cycleNum.
  rewrite zl_ok_range by lia. rewrite bind_some.
  unfold zl_mul at 1.
  rewrite zl_ok_range by lia. rewrite bind_some.
  unfold zl_sub at 1.
  replace (offset - cycleNum * 10631) with dayInCycle by lia.
  rewrite zl_ok_range by lia. rewrite bind_some.
  rewrite (getYearInCycle_finds dayInCycle ky Hky), bind_some.
  unfold zl_mul.
  rewrite zl_ok_range by lia. rewrite bind_some.
  unfold zl_add at 1.
  rewrite zl_ok_range by lia. rewrite bind_some.
  cbv zeta.
  rewrite (yearBaseDay_table zl_bits ky Hb Hky30), bind_some.
  unfold zl_sub at 1. fold dayInYear.
  rewrite zl_ok_range by (unfold dayInYear; lia). rewrite bind_some.
  rewrite (getMonth_finds dayInYear km Hkm), bind_some.
  rewrite (monthBaseDay_table zl_bits km Hb Hkm12), bind_some.
  unfold zl_sub, zl_add.
  rewrite zl_ok_range by (unfold dayInYear; lia). rewrite bind_some.
  rewrite zl_ok_range by (unfold dayInYear; lia). rewrite bind_some.
  rewrite (to_int_small (Z.of_nat km + 1)) by (unfold INT_MIN, INT_MAX; lia).
  rewrite (to_int_small (dayInYear - _ + 1))
    by (unfold INT_MIN, INT_MAX, dayInYear; lia).
  reflexivity.
Qed.

Lemma baseDay_table_base (tbl : list Z) (k : nat) :
  baseDay tbl (Z.of_nat k + 1) = table_base tbl k.
Proof.
  unfold baseDay. destruct k as [| j]; [reflexivity |].
  destruct (Z.eqb_spec (Z.of_nat (S j) + 1) 1) as [H | _]; [lia |].
  replace (Z.to_nat (Z.of_nat (S j) + 1 - 2)) with j by lia.
  reflexivity.
Qed.

(** The indices of an SDN at or after the epoch. *)
Lemma indices_exist (sdn : Z) :
  ISLAMIC_SDN_OFFSET <= sdn ->
  let dayInCycle := (sdn - ISLAMIC_SDN_OFFSET) mod DAYS_PER_30_YEARS in
  0 <= dayInCycle < 10631 /\
  exists ky km,
    smallest_index dayInCycle yearEndDays ky /\
    smallest_index (dayInCycle - table_base yearEndDays ky) monthEndDays km.
Proof.
  intros Hlo dayInCycle.
  assert (Hmod : 0 <= dayInCycle < 10631)
    by (apply Z.mod_pos_bound; reflexivity).
  split; [exact Hmod |].
  destruct (year_index_exists dayInCycle Hmod) as [ky [Hky [_ Hdy]]].
  destruct (month_index_exists _ Hdy) as [km [Hkm _]].
  exists ky, km. split; assumption.
Qed.

(** ** Before the epoch *)

(** C4. Every [sdn] strictly below the epoch constant 1948440 is converted
    to the sentinel: year, month and day are all set to 0. *)
Theorem SdnToTabIslamic_before_epoch (zl_bits sdn : Z) :
  sdn < 1948440 -> SdnToTabIslamic zl_bits sdn = Some (0, 0, 0).
Proof.
  intros H. unfold SdnToTabIslamic, ISLAMIC_SDN_OFFSET.
  apply Z.ltb_lt in H. rewrite H. reflexivity.
Qed.

Lemma SdnToTabIslamic_before_epoch_witness :
  1948439 < 1948440 /\ SdnToTabIslamic 64 1948439 = Some (0, 0, 0).
Proof.
  split; [lia | apply (SdnToTabIslamic_before_epoch 64 1948439); lia].
Defined.

(** ** The epoch *)

(** C5. The epoch 1948440 is the first day of year 1, and 354 days later,
    year 1 having 354 days, comes the first day of year 2. *)
Theorem SdnToTabIslamic_epoch (zl_bits : Z) :
  32 <= zl_bits ->
  SdnToTabIslamic zl_bits 1948440 = Some (1, 1, 1) /\
  SdnToTabIslamic zl_bits (1948440 + 354) = Some (2, 1, 1) /\
  yearSpan 1 = Some 354.
Proof.
  intros Hb. pose proof (pow_zl_bits zl_bits Hb) as Hpow.
  assert (Hmax : 2147483647 <= ZEND_LONG_MAX zl_bits)
    by (unfold ZEND_LONG_MAX; lia).
  split; [| split; [| reflexivity]].
  - rewrite (SdnToTabIslamic_run zl_bits 1948440 0 0 Hb).
    + reflexivity.
    + unfold ISLAMIC_SDN_OFFSET. lia.
    + apply first_index_smallest. reflexivity.
    + apply first_index_smallest. reflexivity.
  - rewrite (SdnToTabIslamic_run zl_bits (1948440 + 354) 1 0 Hb).
    + reflexivity.
    + unfold ISLAMIC_SDN_OFFSET. lia.
    + apply first_index_smallest. reflexivity.
    + apply first_index_smallest. reflexivity.
Qed.

Lemma SdnToTabIslamic_epoch_witness :
  32 <= 64 /\
  SdnToTabIslamic 64 1948440 = Some (1, 1, 1) /\
  SdnToTabIslamic 64 (1948440 + 354) = Some (2, 1, 1) /\
  yearSpan 1 = Some 354.
Proof. split; [lia | apply (SdnToTabIslamic_epoch 64); lia]. Defined.

(** ** The scans never fall through *)

(** C9. For a day of the cycle in [0, 10631) the scan of [getYearInCycle]
    finds a match and returns a year position in [1, 30]; for a day of the
    year in [0, 355) the scan of [getMonth] finds a match and returns a
    month in [1, 12].  Neither returns the defensive 0. *)
Theorem scans_never_fall_through (dayInCycle dayInYear : Z) :
  0 <= dayInCycle < 10631 ->
  0 <= dayInYear < 355 ->
  (exists y, getYearInCycle dayInCycle yearEndDays = Some y /\
             1 <= y <= 30 /\ y <> 0) /\
  (exists m, getMonth dayInYear monthEndDays = Some m /\
             1 <= m <= 12 /\ m <> 0).
Proof.
  intros Hc Hy. split.
  - destruct (year_index_exists dayInCycle Hc) as [k [Hk [Hlt _]]].
    exists (Z.of_nat k + 1). split; [apply getYearInCycle_finds, Hk | lia].
  - destruct (month_index_exists dayInYear Hy) as [k [Hk [Hlt _]]].
    exists (Z.of_nat k + 1). split; [apply getMonth_finds, Hk | lia].
Qed.

Lemma scans_never_fall_through_witness :
  (exists y, getYearInCycle 10630 yearEndDays = Some y /\
             1 <= y <= 30 /\ y <> 0) /\
  (exists m, getMonth 354 monthEndDays = Some m /\
             1 <= m <= 12 /\ m <> 0).
Proof. apply (scans_never_fall_through 10630 354); lia. Defined.

(** Outside those ranges the defensive value does come back. *)
Remark scans_fall_through_outside :
  getYearInCycle 10631 yearEndDays = Some 0 /\
  getMonth 355 monthEndDays = Some 0.
Proof. split; reflexivity. Qed.

(** ** The steps of the conversion *)

(** C6, with the year as the code stores it. For every [zend_long] [sdn >=
    1948440], with [offset = sdn - 1948440]: [cycleNum = offset div 10631]
    and [dayInCycle = offset mod 10631] lies in [0, 10631); [getYearInCycle]
    returns [i + 1] for the smallest 0-based index [i] with [dayInCycle <
    yearEndDays[i]]; [dayInYear] is [dayInCycle] minus 0 if [yearInCycle =
    1], else minus [yearEndDays[yearInCycle - 2]]; [getMonth] is the same
    smallest-index scan over [monthEndDays]; the output month is its result
    and the output day is [dayInYear] minus the analogous month base day,
    plus 1. The output year is [cycleNum * 30 + yearInCycle] converted to
    [int]: it equals that number whenever the number is at most [INT_MAX]. *)
Theorem SdnToTabIslamic_steps (zl_bits sdn : Z) :
  32 <= zl_bits ->
  1948440 <= sdn ->
  sdn <= ZEND_LONG_MAX zl_bits ->
  let offset := sdn - 1948440 in
  let cycleNum := offset / 10631 in
  let dayInCycle := offset mod 10631 in
  0 <= dayInCycle < 10631 /\
  exists i j : nat,
    let yearInCycle := Z.of_nat i + 1 in
    let dayInYear := dayInCycle - baseDay yearEndDays yearInCycle in
    let monthInYear := Z.of_nat j + 1 in
    let dayInMonth := dayInYear - baseDay monthEndDays monthInYear + 1 in
    smallest_index dayInCycle yearEndDays i /\
    getYearInCycle dayInCycle yearEndDays = Some yearInCycle /\
    smallest_index dayInYear monthEndDays j /\
    getMonth dayInYear monthEndDays = Some monthInYear /\
    SdnToTabIslamic zl_bits sdn =
      Some (to_int (cycleNum * 30 + yearInCycle), monthInYear, dayInMonth) /\
    (cycleNum * 30 + yearInCycle <= INT_MAX ->
     to_int (cycleNum * 30 + yearInCycle) = cycleNum * 30 + yearInCycle).
Proof.
  intros Hb Hlo Hhi offset cycleNum dayInCycle.
  destruct (indices_exist sdn Hlo) as [Hmod [i [j [Hi Hj]]]].
  fold dayInCycle in Hmod.
  split; [exact Hmod |].
  exists i, j. cbv zeta. rewrite !baseDay_table_base.
  split; [exact Hi |].
  split; [apply getYearInCycle_finds, Hi |].
  split; [exact Hj |].
  split; [apply getMonth_finds, Hj |].
  split.
  - apply (SdnToTabIslamic_run zl_bits sdn i j Hb (conj Hlo Hhi) Hi Hj).
  - intros Hfit. apply to_int_small.
    assert (0 <= cycleNum)
      by (apply Z.div_pos; [unfold offset; lia | reflexivity]).
    unfold INT_MIN, INT_MAX in *. lia.
Qed.

Lemma SdnToTabIslamic_steps_witness :
  32 <= 64 /\ 1948440 <= 1948793 /\ 1948793 <= ZEND_LONG_MAX 64 /\
  exists i j : nat,
    smallest_index 353 yearEndDays i /\
    getYearInCycle 353 yearEndDays = Some (Z.of_nat i + 1) /\
    smallest_index (353 - baseDay yearEndDays (Z.of_nat i + 1)) monthEndDays j /\
    getMonth (353 - baseDay yearEndDays (Z.of_nat i + 1)) monthEndDays =
      Some (Z.of_nat j + 1) /\
    SdnToTabIslamic 64 1948793 =
      Some (to_int (0 * 30 + (Z.of_nat i + 1)), Z.of_nat j + 1,
            353 - baseDay yearEndDays (Z.of_nat i + 1)
              - baseDay monthEndDays (Z.of_nat j + 1) + 1) /\
    (0 * 30 + (Z.of_nat i + 1) <= INT_MAX ->
     to_int (0 * 30 + (Z.of_nat i + 1)) = 0 * 30 + (Z.of_nat i + 1)).
Proof.
  assert (H32 : 32 <= 64) by lia.
  assert (Hlo : 1948440 <= 1948793) by lia.
  assert (Hhi : 1948793 <= ZEND_LONG_MAX 64) by (vm_compute; discriminate).
  split; [exact H32 |]. split; [exact Hlo |]. split; [exact Hhi |].
  exact (proj2 (SdnToTabIslamic_steps 64 1948793 H32 Hlo Hhi)).
Defined.

(** On a 64-bit [zend_long] the year of the day after [LAST_SDN] is
    [2147483648], which the [int] output cannot hold: the stored year is
    not [cycleNum * 30 + yearInCycle]. *)
Lemma SdnToTabIslamic_year_not_cycle_sum :
  1948440 <= 760998570149 <= ZEND_LONG_MAX 64 /\
  getYearInCycle ((760998570149 - 1948440) mod 10631) yearEndDays = Some 8 /\
  SdnToTabIslamic 64 760998570149 = Some (-2147483648, 1, 1) /\
  -2147483648 <> (760998570149 - 1948440) / 10631 * 30 + 8.
Proof. repeat split; vm_compute; congruence. Qed.

(** ** Monotonicity *)

Lemma earlier_asymmetric (a b : Z * Z * Z) : earlier a b -> ~ earlier b a.
Proof.
  destruct a as [[y1 m1] d1], b as [[y2 m2] d2]. unfold earlier. lia.
Qed.

(** Inside the supported range the year number fits the [int] output. *)
Lemma supported_year_fits (zl_bits sdn : Z) (ky : nat) :
  supported zl_bits sdn ->
  smallest_index ((sdn - ISLAMIC_SDN_OFFSET) mod DAYS_PER_30_YEARS)
    yearEndDays ky ->
  INT_MIN <=
    (sdn - ISLAMIC_SDN_OFFSET) / DAYS_PER_30_YEARS * 30 + (Z.of_nat ky + 1)
    <= INT_MAX.
Proof.
  intros (Hlo & _ & Hlast) Hky.
  cbv delta [ISLAMIC_SDN_OFFSET DAYS_PER_30_YEARS LAST_SDN INT_MIN INT_MAX] in *.
  set (offset := sdn - 1948440) in *.
  assert (Hdiv : offset = 10631 * (offset / 10631) + offset mod 10631)
    by (apply Z.div_mod; discriminate).
  assert (Hmod : 0 <= offset mod 10631 < 10631)
    by (apply Z.mod_pos_bound; reflexivity).
  assert (Hc : 0 <= offset / 10631)
    by (apply Z.div_pos; [unfold offset; lia | reflexivity]).
  pose proof (smallest_index_lt_length _ _ _ Hky) as Hky30.
  change (List.length yearEndDays) with 30%nat in Hky30.
  destruct (Z.lt_ge_cases (offset / 10631) 71582788) as [Hlt | Hge];
    [lia |].
  assert (Hd : offset mod 10631 < 2481) by (unfold offset in *; lia).
  destruct (first_index_exists (offset mod 10631) yearEndDays 6 2481 eq_refl Hd)
    as [k [Hk Hk6]].
  apply first_index_smallest in Hk.
  assert (ky <= k)%nat
    by (apply (smallest_index_mono _ _ _ _ _ (Z.le_refl _) Hky Hk)).
  unfold offset in *. lia.
Qed.

(** Later SDNs are converted to later dates. *)
Lemma SdnToTabIslamic_increasing (zl_bits sdn1 sdn2 : Z) :
  32 <= zl_bits ->
  supported zl_bits sdn1 -> supported zl_bits sdn2 -> sdn1 < sdn2 ->
  exists date1 date2,
    SdnToTabIslamic zl_bits sdn1 = Some date1 /\
    SdnToTabIslamic zl_bits sdn2 = Some date2 /\
    earlier date1 date2.
Proof.
  intros Hb Hs1 Hs2 Hlt.
  pose proof Hs1 as (Hlo1 & Hhi1 & _). pose proof Hs2 as (Hlo2 & Hhi2 & _).
  destruct (indices_exist sdn1 Hlo1) as [Hmod1 [ky1 [km1 [Hky1 Hkm1]]]].
  destruct (indices_exist sdn2 Hlo2) as [Hmod2 [ky2 [km2 [Hky2 Hkm2]]]].
  pose proof (supported_year_fits zl_bits sdn1 ky1 Hs1 Hky1) as Hfit1.
  pose proof (supported_year_fits zl_bits sdn2 ky2 Hs2 Hky2) as Hfit2.
  eexists; eexists.
  split; [apply (SdnToTabIslamic_run zl_bits sdn1 ky1 km1 Hb (conj Hlo1 Hhi1) Hky1 Hkm1) |].
  split; [apply (SdnToTabIslamic_run zl_bits sdn2 ky2 km2 Hb (conj Hlo2 Hhi2) Hky2 Hkm2) |].
  rewrite !to_int_small by assumption.
  cbv delta [ISLAMIC_SDN_OFFSET DAYS_PER_30_YEARS] in *.
  set (o1 := sdn1 - 1948440) in *. set (o2 := sdn2 - 1948440) in *.
  assert (Hdiv1 : o1 = 10631 * (o1 / 10631) + o1 mod 10631)
    by (apply Z.div_mod; discriminate).
  assert (Hdiv2 : o2 = 10631 * (o2 / 10631) + o2 mod 10631)
    by (apply Z.div_mod; discriminate).
  assert (Hc : o1 / 10631 <= o2 / 10631)
    by (apply Z.div_le_mono; unfold o1, o2; lia).
  pose proof (smallest_index_lt_length _ _ _ Hky1) as Hky1_30.
  change (List.length yearEndDays) with 30%nat in Hky1_30.
  set (c1 := o1 / 10631) in *. set (c2 := o2 / 10631) in *.
  set (d1 := o1 mod 10631) in *. set (d2 := o2 mod 10631) in *.
  unfold earlier.
  destruct (Z.eq_dec c1 c2) as [Hceq | Hcne]; [| left; lia].
  assert (Hd : d1 < d2) by (unfold o1, o2 in *; lia).
  assert (Hk : (ky1 <= ky2)%nat)
    by (apply (smallest_index_mono d1 d2 yearEndDays); [lia | assumption ..]).
  destruct (Nat.eq_dec ky1 ky2) as [Hkeq | Hkne]; [| left; lia].
  right. split; [lia |]. subst ky2.
  assert (Hm : (km1 <= km2)%nat)
    by (apply (smallest_index_mono (d1 - table_base yearEndDays ky1)
                 (d2 - table_base yearEndDays ky1) monthEndDays);
        [lia | assumption ..]).
  destruct (Nat.eq_dec km1 km2) as [Hmeq | Hmne]; [| left; lia].
  right. split; [lia |]. subst km2. lia.
Qed.

(** C7, up to the last year the [int] output holds.  For [sdn1 < sdn2],
    both at or after the epoch 1948440 and no later than [LAST_SDN], the
    last [zend_long] SDN whose year the [int] output can hold, the date
    produced for [sdn2] is not earlier than the date produced for [sdn1]
    in the order year, then month, then day. *)
Theorem SdnToTabIslamic_monotone (zl_bits sdn1 sdn2 : Z) :
  32 <= zl_bits ->
  supported zl_bits sdn1 -> supported zl_bits sdn2 -> sdn1 < sdn2 ->
  exists date1 date2,
    SdnToTabIslamic zl_bits sdn1 = Some date1 /\
    SdnToTabIslamic zl_bits sdn2 = Some date2 /\
    ~ earlier date2 date1.
Proof.
  intros Hb Hs1 Hs2 Hlt.
  destruct (SdnToTabIslamic_increasing zl_bits sdn1 sdn2 Hb Hs1 Hs2 Hlt)
    as [date1 [date2 [H1 [H2 Hearlier]]]].
  exists date1, date2.
  split; [exact H1 |]. split; [exact H2 |].
  apply earlier_asymmetric. exact Hearlier.
Qed.

Lemma SdnToTabIslamic_monotone_witness :
  32 <= 64 /\ supported 64 1948793 /\ supported 64 1948794 /\
  1948793 < 1948794 /\
  exists date1 date2,
    SdnToTabIslamic 64 1948793 = Some date1 /\
    SdnToTabIslamic 64 1948794 = Some date2 /\
    ~ earlier date2 date1.
Proof.
  assert (H32 : 32 <= 64) by lia.
  assert (Hs1 : supported 64 1948793)
    by (repeat split; vm_compute; discriminate).
  assert (Hs2 : supported 64 1948794)
    by (repeat split; vm_compute; discriminate).
  assert (Hlt : 1948793 < 1948794) by lia.
  split; [exact H32 |]. split; [exact Hs1 |]. split; [exact Hs2 |].
  split; [exact Hlt |].
  exact (SdnToTabIslamic_monotone 64 1948793 1948794 H32 Hs1 Hs2 Hlt).
Defined.

(** Past [LAST_SDN] the order breaks on a 64-bit [zend_long]: SDN
    760998570148 is the last day, (12, 30), of year 2147483647, and SDN
    760998570149, the first day of year 2147483648, is stored with the
    year -2147483648, which is earlier. *)
Lemma SdnToTabIslamic_not_monotone_past_int_years :
  ~ (forall sdn1 sdn2 : Z,
       1948440 <= sdn1 -> 1948440 <= sdn2 -> sdn1 < sdn2 ->
       sdn2 <= ZEND_LONG_MAX 64 ->
       forall date1 date2,
         SdnToTabIslamic 64 sdn1 = Some date1 ->
         SdnToTabIslamic 64 sdn2 = Some date2 ->
         ~ earlier date2 date1).
Proof.
  intros H.
  apply (H 760998570148 760998570149 ltac:(lia) ltac:(lia) ltac:(lia)
           ltac:(vm_compute; discriminate)
           (2147483647, 12, 30) (-2147483648, 1, 1)).
  - vm_compute. reflexivity.
  - vm_compute. reflexivity.
  - left. lia.
Qed.

(** The bound of the supported range is sharp on a 64-bit [zend_long]:
    [LAST_SDN] is the last day of year [INT_MAX], and the day after it is
    stored with the year [INT_MIN]. *)
Remark LAST_SDN_sharp :
  SdnToTabIslamic 64 LAST_SDN = Some (INT_MAX, 12, 30) /\
  SdnToTabIslamic 64 (LAST_SDN + 1) = Some (INT_MIN, 1, 1) /\
  earlier (INT_MIN, 1, 1) (INT_MAX, 12, 30).
Proof.
  split; [vm_compute; reflexivity |].
  split; [vm_compute; reflexivity |].
  left. reflexivity.
Qed.

(** A 32-bit [zend_long] never leaves the supported range. *)
Remark supported_32 (sdn : Z) :
  ISLAMIC_SDN_OFFSET <= sdn <= ZEND_LONG_MAX 32 -> supported 32 sdn.
Proof.
  intros [Hlo Hhi]. repeat split; try assumption.
  change (ZEND_LONG_MAX 32) with 2147483647 in Hhi.
  change LAST_SDN with 760998570148. lia.
Qed.

(** ** The year table *)

Lemma position_cases (n : nat) (pos : Z) :
  1 <= pos <= Z.of_nat n ->
  exists k, (k < n)%nat /\ pos = Z.of_nat k + 1.
Proof. intros H. exists (Z.to_nat (pos - 1)). lia. Qed.

(** C2, with the leap positions the table has. The difference of consecutive
    [yearEndDays] entries is 355 at the year positions 2, 5, 7, 10, 13, 16,
    18, 21, 24, 26 and 29 of the 30-year cycle, and 354 at every other
    position. *)
Theorem yearSpan_leap_positions (pos : Z) :
  1 <= pos <= 30 ->
  yearSpan pos = Some (if isLeapPosition pos then 355 else 354).
Proof.
  intros H. destruct (position_cases 30 pos H) as [k [Hk ->]].
  do 30 (destruct k as [| k]; [reflexivity |]). lia.
Qed.

Lemma yearSpan_leap_positions_witness :
  1 <= 3 <= 30 /\ yearSpan 3 = Some (if isLeapPosition 3 then 355 else 354).
Proof. split; [lia | apply (yearSpan_leap_positions 3); lia]. Defined.

(** Position 3 is a "4th year position" and spans 354 days; position 2 is
    not and spans 355. *)
Lemma yearSpan_not_every_4th :
  ~ (forall pos, 1 <= pos <= 30 ->
       yearSpan pos = Some (if pos mod 4 =? 3 then 355 else 354)).
Proof.
  intros H. specialize (H 3 ltac:(lia)). vm_compute in H. discriminate.
Qed.

(** The 11 leap years add up to the cycle length. *)
Remark cycle_length :
  19 * 354 + 11 * 355 = DAYS_PER_30_YEARS /\
  nth_error yearEndDays 29 = Some DAYS_PER_30_YEARS.
Proof. split; reflexivity. Qed.

(** ** The month table *)

(** C3, with the month lengths the table has. For the month positions 1 to
    11 the difference of consecutive [monthEndDays] entries is 30 at odd
    positions and 29 at even positions, and that is the number of days of
    the month in common and in leap years alike; the 12th entry's difference
    is 30, and the 12th month has 29 days in a common (354-day) year and 30
    days in a leap (355-day) year. *)
Theorem monthSpan_lengths (m : Z) :
  1 <= m <= 11 ->
  monthSpan m = Some (if Z.odd m then 30 else 29) /\
  Some (Z.of_nat (daysInMonth 354 m)) = monthSpan m /\
  Some (Z.of_nat (daysInMonth 355 m)) = monthSpan m /\
  monthSpan 12 = Some 30 /\
  daysInMonth 354 12 = 29%nat /\
  daysInMonth 355 12 = 30%nat.
Proof.
  intros H. destruct (position_cases 11 m H) as [k [Hk ->]].
  do 11 (destruct k as [| k]; [vm_compute; repeat split; reflexivity |]).
  lia.
Qed.

Lemma monthSpan_lengths_witness :
  1 <= 2 <= 11 /\
  monthSpan 2 = Some (if Z.odd 2 then 30 else 29) /\
  Some (Z.of_nat (daysInMonth 354 2)) = monthSpan 2 /\
  Some (Z.of_nat (daysInMonth 355 2)) = monthSpan 2 /\
  monthSpan 12 = Some 30 /\
  daysInMonth 354 12 = 29%nat /\
  daysInMonth 355 12 = 30%nat.
Proof. split; [lia | apply (monthSpan_lengths 2); lia]. Defined.

(** The second month spans 29 days. *)
Lemma monthSpan_not_always_30 :
  ~ (forall m, 1 <= m <= 11 -> monthSpan m = Some 30).
Proof.
  intros H. specialize (H 2 ltac:(lia)). vm_compute in H. discriminate.
Qed.

(** ** Month names *)

(** C8. The table has 13 entries: index 0 holds the empty string, index
    12 holds "Extra", and index 13 is past its end. *)
Theorem TabIslamicMonthName_lookup :
  List.length TabIslamicMonthName = 13%nat /\
  aget TabIslamicMonthName 0 = Some ""%string /\
  aget TabIslamicMonthName 1 = Some "Vendemiaire"%string /\
  aget TabIslamicMonthName 11 = Some "Fructidor"%string /\
  aget TabIslamicMonthName 12 = Some "Extra"%string /\
  aget TabIslamicMonthName 13 = None.
Proof. repeat split. Qed.

(** ** The inverse conversion *)

(** C10. [TabIslamicToSdn] returns 0 for every triple. *)
Theorem TabIslamicToSdn_zero (year month day : Z) :
  TabIslamicToSdn year month day = 0.
Proof. reflexivity. Qed.

(** C1. The first day of year 1 is the date of SDN 1948440, yet
    [TabIslamicToSdn] maps it to 0, not to a positive SDN, and converting
    that 0 back gives the sentinel, not the date. *)
Theorem round_trip_fails_at_epoch (zl_bits : Z) :
  SdnToTabIslamic 64 1948440 = Some (1, 1, 1) /\
  TabIslamicToSdn 1 1 1 = 0 /\
  SdnToTabIslamic zl_bits (TabIslamicToSdn 1 1 1) = Some (0, 0, 0).
Proof. repeat split. Qed.

(** * Further properties of the conversion *)

(** ** The scans over an arbitrary table *)

Lemma skipn_nth_error_cons (tbl : list Z) (i : nat) (e : Z) :
  nth_error tbl i = Some e -> skipn i tbl = e :: skipn (S i) tbl.
Proof.
  revert i. induction tbl as [| x rest IH]; intros i H.
  - destruct i; discriminate.
  - destruct i as [| i]; simpl in *.
    + injection H as ->. reflexivity.
    + apply IH. exact H.
Qed.

Lemma getYearInCycle_loop_scan (tbl : list Z) (d : Z) (n i : nat) :
  (i <= List.length tbl)%nat -> Z.of_nat (i + n) < UINT_MODULUS ->
  getYearInCycle_loop n (Z.of_nat i) d tbl =
    match first_index d (firstn n (skipn i tbl)) with
    | Some k => Some (Z.of_nat i + Z.of_nat k + 1)
    | None => if (n <=? List.length tbl - i)%nat then Some 0 else None
    end.
Proof.
  revert i. induction n as [| n IH]; intros i Hi Hmod; [reflexivity |].
  cbn [getYearInCycle_loop]. rewrite aget_nat.
  assert (Hnext : uint_add (Z.of_nat i) 1 = Z.of_nat (S i))
    by (rewrite uint_add_small; lia).
  destruct (nth_error tbl i) as [e |] eqn:He.
  - assert (Hlt : (i < List.length tbl)%nat)
      by (apply nth_error_Some; rewrite He; discriminate).
    rewrite (skipn_nth_error_cons tbl i e He), firstn_cons, bind_some.
    cbn [first_index]. destruct (d <? e).
    + rewrite Hnext. f_equal. lia.
    + rewrite Hnext, IH by lia.
      destruct (first_index d (firstn n (skipn (S i) tbl))) as [k |].
      * cbn [option_map]. f_equal. lia.
      * cbn [option_map].
        destruct (Nat.leb_spec n (List.length tbl - S i)),
                 (Nat.leb_spec (S n) (List.length tbl - i));
          try reflexivity; lia.
  - apply nth_error_None in He.
    rewrite skipn_all2 by exact He.
    replace (List.length tbl - i)%nat with 0%nat by lia. reflexivity.
Qed.

Lemma getYearInCycle_loop_scanResult (n : nat) (d : Z) (tbl : list Z) :
  Z.of_nat n < UINT_MODULUS ->
  getYearInCycle_loop n 0 d tbl = scanResult n d tbl.
Proof.
  intros Hn.
  pose proof (getYearInCycle_loop_scan tbl d n 0) as H.
  change (Z.of_nat 0) with 0 in H. cbn [skipn] in H.
  rewrite Nat.sub_0_r in H. rewrite H by lia.
  unfold scanResult.
  destruct (first_index d (firstn n tbl)); [f_equal; lia | reflexivity].
Qed.

(** X9. [getYearInCycle] and [getMonth] on any table: the 1-based position
    of the first of the first 30 (12) entries above the day; 0 when the
    table has 30 (12) entries and none is above it; a read past the end of
    a shorter table with no entry above it. *)
Theorem scans_on_any_table (d : Z) (tbl : list Z) :
  getYearInCycle d tbl = scanResult 30 d tbl /\
  getMonth d tbl = scanResult 12 d tbl.
Proof.
  unfold getYearInCycle, getMonth.
  rewrite (getMonth_loop_eq 12 0 d tbl).
  split; apply getYearInCycle_loop_scanResult;
    unfold UINT_MODULUS, CALENDAR_CYCLE_YEARS; lia.
Qed.

Lemma first_index_none (d : Z) (tbl : list Z) :
  Forall (fun e => e <= d) tbl -> first_index d tbl = None.
Proof.
  induction 1 as [| e rest He _ IH]; [reflexivity |].
  cbn. apply Z.ltb_ge in He. rewrite He, IH. reflexivity.
Qed.

(** X10. On the two tables of the conversion the defensive 0 comes back
    exactly for a day at or past the last entry. *)
Theorem scans_fall_through_iff (d : Z) :
  (getYearInCycle d yearEndDays = Some 0 <-> 10631 <= d) /\
  (getMonth d monthEndDays = Some 0 <-> 355 <= d).
Proof.
  split; split.
  - intros H. destruct (Z.le_gt_cases 10631 d) as [Hd | Hd]; [exact Hd |].
    destruct (first_index_exists d yearEndDays 29 10631 eq_refl)
      as [k [Hk _]]; [lia |].
    apply first_index_smallest in Hk.
    rewrite (getYearInCycle_finds d k Hk) in H. injection H as H. lia.
  - intros Hd. unfold getYearInCycle.
    rewrite getYearInCycle_loop_scanResult by (vm_compute; reflexivity).
    unfold scanResult. rewrite first_index_none; [reflexivity |].
    unfold yearEndDays. repeat (constructor; [lia |]). constructor.
  - intros H. destruct (Z.le_gt_cases 355 d) as [Hd | Hd]; [exact Hd |].
    destruct (first_index_exists d monthEndDays 11 355 eq_refl)
      as [k [Hk _]]; [lia |].
    apply first_index_smallest in Hk.
    rewrite (getMonth_finds d k Hk) in H. injection H as H. lia.
  - intros Hd. unfold getMonth.
    rewrite (getMonth_loop_eq 12 0 d monthEndDays).
    rewrite getYearInCycle_loop_scanResult by (vm_compute; reflexivity).
    unfold scanResult. rewrite first_index_none; [reflexivity |].
    unfold monthEndDays. repeat (constructor; [lia |]). constructor.
Qed.

(** ** More facts read off the two tables *)

Lemma yearEndDays_cases (k : nat) :
  (k < 30)%nat ->
  nth k yearEndDays 0 - table_base yearEndDays k =
    (if isLeapPosition (Z.of_nat k + 1) then 355 else 354) /\
  ((k = 29%nat /\ nth k yearEndDays 0 = 10631) \/
   ((k < 29)%nat /\ nth k yearEndDays 0 <= 10277)).
Proof.
  intros Hk.
  do 30 (destruct k as [| k];
         [split; [reflexivity | cbn; lia] |]).
  lia.
Qed.

Lemma monthEndDays_cases (k : nat) :
  (k < 12)%nat ->
  (k = 11%nat /\ table_base monthEndDays k = 325 /\
   nth k monthEndDays 0 = 355 /\
   forall leap, monthDays leap (Z.of_nat k + 1) = if leap then 30 else 29) \/
  ((k < 11)%nat /\ nth k monthEndDays 0 <= 325 /\
   forall leap,
     monthDays leap (Z.of_nat k + 1) =
       nth k monthEndDays 0 - table_base monthEndDays k).
Proof.
  intros Hk.
  do 11 (destruct k as [| k];
         [right; split; [lia | split; [cbn; lia | intros leap; reflexivity]] |]).
  destruct k as [| k]; [| lia].
  left. repeat split.
Qed.

Lemma yearEndDays_sorted (j k : nat) :
  (j < k)%nat -> (k < 30)%nat ->
  nth j yearEndDays 0 <= table_base yearEndDays k.
Proof.
  intros Hjk. induction k as [| k IH]; intros Hk; [lia |].
  cbn [table_base].
  destruct (Nat.eq_dec j k) as [-> | Hne]; [lia |].
  pose proof (yearEndDays_spans k). lia.
Qed.

Lemma monthEndDays_sorted (j k : nat) :
  (j < k)%nat -> (k < 12)%nat ->
  nth j monthEndDays 0 <= table_base monthEndDays k.
Proof.
  intros Hjk. induction k as [| k IH]; intros Hk; [lia |].
  cbn [table_base].
  destruct (Nat.eq_dec j k) as [-> | Hne]; [lia |].
  pose proof (monthEndDays_spans k). lia.
Qed.

Lemma smallest_index_between (tbl : list Z) (d : Z) (k : nat) :
  (k < List.length tbl)%nat ->
  (forall j, (j < k)%nat -> nth j tbl 0 <= table_base tbl k) ->
  table_base tbl k <= d < nth k tbl 0 ->
  smallest_index d tbl k.
Proof.
  intros Hk Hsorted [Hlo Hhi]. split.
  - exists (nth k tbl 0). split; [apply nth_error_nth'; exact Hk | exact Hhi].
  - intros j e Hj He. rewrite <- (nth_error_nth tbl j 0 He).
    specialize (Hsorted j Hj). lia.
Qed.

Lemma smallest_index_year (d : Z) (k : nat) :
  (k < 30)%nat ->
  table_base yearEndDays k <= d < nth k yearEndDays 0 ->
  smallest_index d yearEndDays k.
Proof.
  intros Hk Hd. apply smallest_index_between; [exact Hk | | exact Hd].
  intros j Hj. apply yearEndDays_sorted; assumption.
Qed.

Lemma smallest_index_month (d : Z) (k : nat) :
  (k < 12)%nat ->
  table_base monthEndDays k <= d < nth k monthEndDays 0 ->
  smallest_index d monthEndDays k.
Proof.
  intros Hk Hd. apply smallest_index_between; [exact Hk | | exact Hd].
  intros j Hj. apply monthEndDays_sorted; assumption.
Qed.

(** ** The result, with everything known about its parts *)

(** At or after the epoch: the result of the conversion together with the
    bounds of the year and month indices behind it. *)
Lemma SdnToTabIslamic_parts (zl_bits sdn : Z) :
  32 <= zl_bits ->
  ISLAMIC_SDN_OFFSET <= sdn <= ZEND_LONG_MAX zl_bits ->
  exists (c dayInCycle : Z) (ky km : nat),
    sdn = ISLAMIC_SDN_OFFSET + c * 10631 + dayInCycle /\
    0 <= c /\
    c = (sdn - ISLAMIC_SDN_OFFSET) / DAYS_PER_30_YEARS /\
    dayInCycle = (sdn - ISLAMIC_SDN_OFFSET) mod DAYS_PER_30_YEARS /\
    (ky < 30)%nat /\ (km < 12)%nat /\
    smallest_index dayInCycle yearEndDays ky /\
    smallest_index (dayInCycle - table_base yearEndDays ky) monthEndDays km /\
    table_base yearEndDays ky <= dayInCycle < nth ky yearEndDays 0 /\
    table_base monthEndDays km <= dayInCycle - table_base yearEndDays ky
      < nth km monthEndDays 0 /\
    SdnToTabIslamic zl_bits sdn =
      Some (to_int (c * 30 + (Z.of_nat ky + 1)), Z.of_nat km + 1,
            dayInCycle - table_base yearEndDays ky
              - table_base monthEndDays km + 1).
Proof.
  intros Hb [Hlo Hhi].
  destruct (indices_exist sdn Hlo) as [Hmod [ky [km [Hky Hkm]]]].
  pose proof (SdnToTabIslamic_run zl_bits sdn ky km Hb (conj Hlo Hhi) Hky Hkm)
    as Hrun.
  cbv zeta in Hmod, Hrun.
  pose proof (smallest_index_lt_length _ _ _ Hky) as Hky30.
  pose proof (smallest_index_lt_length _ _ _ Hkm) as Hkm12.
  change (List.length yearEndDays) with 30%nat in Hky30.
  change (List.length monthEndDays) with 12%nat in Hkm12.
  pose proof (smallest_index_base _ _ _ (proj1 Hmod) Hky) as Hyb.
  pose proof (yearEndDays_spans ky Hky30) as Hys.
  assert (Hdy : 0 <= (sdn - ISLAMIC_SDN_OFFSET) mod DAYS_PER_30_YEARS
                      - table_base yearEndDays ky) by lia.
  pose proof (smallest_index_base _ _ _ Hdy Hkm) as Hmb.
  exists ((sdn - ISLAMIC_SDN_OFFSET) / DAYS_PER_30_YEARS),
         ((sdn - ISLAMIC_SDN_OFFSET) mod DAYS_PER_30_YEARS), ky, km.
  assert (Hdiv : sdn - ISLAMIC_SDN_OFFSET =
                 DAYS_PER_30_YEARS * ((sdn - ISLAMIC_SDN_OFFSET) / DAYS_PER_30_YEARS)
                 + (sdn - ISLAMIC_SDN_OFFSET) mod DAYS_PER_30_YEARS)
    by (apply Z.div_mod; discriminate).
  assert (Hc : 0 <= (sdn - ISLAMIC_SDN_OFFSET) / DAYS_PER_30_YEARS)
    by (apply Z.div_pos; [lia | reflexivity]).
  change DAYS_PER_30_YEARS with 10631 in Hdiv at 1.
  repeat (split; [first [assumption | reflexivity | lia] |]).
  exact Hrun.
Qed.

Lemma yearPosition_index (c : Z) (ky : nat) :
  (ky < 30)%nat ->
  yearPosition (c * 30 + (Z.of_nat ky + 1)) = Z.of_nat ky + 1 /\
  (c * 30 + (Z.of_nat ky + 1) - 1) / 30 = c.
Proof.
  intros Hk. unfold yearPosition.
  replace (c * 30 + (Z.of_nat ky + 1) - 1) with (Z.of_nat ky + c * 30) by lia.
  rewrite Z.mod_add, Z.div_add by discriminate.
  rewrite Z.mod_small, Z.div_small by lia. lia.
Qed.

(** ** No undefined behaviour *)

(** X1. For every [zend_long] input the conversion runs to its end: no
    [zend_long] operation overflows and no read leaves a table. *)
Theorem SdnToTabIslamic_defined (zl_bits sdn : Z) :
  32 <= zl_bits ->
  ZEND_LONG_MIN zl_bits <= sdn <= ZEND_LONG_MAX zl_bits ->
  exists date, SdnToTabIslamic zl_bits sdn = Some date.
Proof.
  intros Hb [_ Hhi].
  destruct (Z.lt_ge_cases sdn ISLAMIC_SDN_OFFSET) as [Hlt | Hge].
  - exists (0, 0, 0). unfold SdnToTabIslamic.
    apply Z.ltb_lt in Hlt. rewrite Hlt. reflexivity.
  - destruct (SdnToTabIslamic_parts zl_bits sdn Hb (conj Hge Hhi))
      as (c & d & ky & km & H).
    eexists. apply H.
Qed.

Lemma SdnToTabIslamic_defined_witness :
  32 <= 64 /\
  ZEND_LONG_MIN 64 <= ZEND_LONG_MAX 64 <= ZEND_LONG_MAX 64 /\
  exists date, SdnToTabIslamic 64 (ZEND_LONG_MAX 64) = Some date.
Proof.
  assert (H32 : 32 <= 64) by lia.
  assert (Hr : ZEND_LONG_MIN 64 <= ZEND_LONG_MAX 64 <= ZEND_LONG_MAX 64)
    by (split; vm_compute; discriminate).
  split; [exact H32 |]. split; [exact Hr |].
  exact (SdnToTabIslamic_defined 64 (ZEND_LONG_MAX 64) H32 Hr).
Defined.

(** ** The sentinel *)

(** X2. The sentinel [(0, 0, 0)] is returned for the days before the epoch
    and for no other [zend_long], however large: the month of a day at or
    after the epoch is never 0. *)
Theorem SdnToTabIslamic_sentinel_iff (zl_bits sdn : Z) :
  32 <= zl_bits ->
  sdn <= ZEND_LONG_MAX zl_bits ->
  (SdnToTabIslamic zl_bits sdn = Some (0, 0, 0) <-> sdn < 1948440).
Proof.
  intros Hb Hhi. split.
  - intros H. destruct (Z.lt_ge_cases sdn 1948440) as [Hlt | Hge];
      [exact Hlt |].
    destruct (SdnToTabIslamic_parts zl_bits sdn Hb (conj Hge Hhi))
      as (c & d & ky & km & _ & _ & _ & _ & _ & _ & _ & _ & _ & _ & Hrun).
    rewrite Hrun in H. injection H as _ Hm _. lia.
  - intros Hlt. unfold SdnToTabIslamic, ISLAMIC_SDN_OFFSET.
    apply Z.ltb_lt in Hlt. rewrite Hlt. reflexivity.
Qed.

Lemma SdnToTabIslamic_sentinel_iff_witness :
  32 <= 64 /\ 760998570149 <= ZEND_LONG_MAX 64 /\
  (SdnToTabIslamic 64 760998570149 = Some (0, 0, 0) <->
   760998570149 < 1948440).
Proof.
  assert (H32 : 32 <= 64) by lia.
  assert (Hhi : 760998570149 <= ZEND_LONG_MAX 64) by (vm_compute; discriminate).
  split; [exact H32 |]. split; [exact Hhi |].
  exact (SdnToTabIslamic_sentinel_iff 64 760998570149 H32 Hhi).
Defined.

(** ** Valid dates *)

(** X3. In the supported range the conversion returns a date of the
    calendar: a year of at least 1, a month from 1 to 12 and a day from 1 to
    the length of that month in that year. *)
Theorem SdnToTabIslamic_valid (zl_bits sdn : Z) :
  32 <= zl_bits ->
  supported zl_bits sdn ->
  exists date, SdnToTabIslamic zl_bits sdn = Some date /\ validDate date.
Proof.
  intros Hb Hs. pose proof Hs as (Hlo & Hhi & _).
  destruct (SdnToTabIslamic_parts zl_bits sdn Hb (conj Hlo Hhi))
    as (c & d & ky & km & Hsdn & Hc & Hcdef & Hddef & Hky30 & Hkm12
        & Hky & Hkm & Hyb & Hmb & Hrun).
  assert (Hky' := Hky). rewrite Hddef in Hky'.
  pose proof (supported_year_fits zl_bits sdn ky Hs Hky') as Hfit.
  rewrite <- Hcdef in Hfit.
  rewrite to_int_small in Hrun by exact Hfit.
  eexists. split; [exact Hrun |].
  unfold validDate, monthLength.
  destruct (yearPosition_index c ky Hky30) as [-> _].
  destruct (yearEndDays_cases ky Hky30) as [Hspan _].
  split; [lia |]. split; [lia |].
  destruct (monthEndDays_cases km Hkm12)
    as [(-> & Hbase & Hend & Hdays) | (Hlt & Hend & Hdays)];
    rewrite Hdays; destruct (isLeapPosition (Z.of_nat ky + 1)); lia.
Qed.

Lemma SdnToTabIslamic_valid_witness :
  32 <= 64 /\ supported 64 LAST_SDN /\
  exists date, SdnToTabIslamic 64 LAST_SDN = Some date /\ validDate date.
Proof.
  assert (H32 : 32 <= 64) by lia.
  assert (Hs : supported 64 LAST_SDN)
    by (repeat split; vm_compute; discriminate).
  split; [exact H32 |]. split; [exact Hs |].
  exact (SdnToTabIslamic_valid 64 LAST_SDN H32 Hs).
Defined.

(** ** From the date back to the day number *)

(** X4. In the supported range the date determines the SDN: adding up the
    epoch, the cycles, the years, the months and the days before the date
    gives back the input. *)
Theorem dateToDayNumber_SdnToTabIslamic (zl_bits sdn : Z) :
  32 <= zl_bits ->
  supported zl_bits sdn ->
  exists year month day,
    SdnToTabIslamic zl_bits sdn = Some (year, month, day) /\
    dateToDayNumber year month day = sdn.
Proof.
  intros Hb Hs. pose proof Hs as (Hlo & Hhi & _).
  destruct (SdnToTabIslamic_parts zl_bits sdn Hb (conj Hlo Hhi))
    as (c & d & ky & km & Hsdn & Hc & Hcdef & Hddef & Hky30 & Hkm12
        & Hky & Hkm & Hyb & Hmb & Hrun).
  assert (Hky' := Hky). rewrite Hddef in Hky'.
  pose proof (supported_year_fits zl_bits sdn ky Hs Hky') as Hfit.
  rewrite <- Hcdef in Hfit.
  rewrite to_int_small in Hrun by exact Hfit.
  do 3 eexists. split; [exact Hrun |].
  unfold dateToDayNumber.
  destruct (yearPosition_index c ky Hky30) as [-> ->].
  rewrite !baseDay_table_base.
  unfold DAYS_PER_30_YEARS. lia.
Qed.

Lemma dateToDayNumber_SdnToTabIslamic_witness :
  32 <= 64 /\ supported 64 LAST_SDN /\
  exists year month day,
    SdnToTabIslamic 64 LAST_SDN = Some (year, month, day) /\
    dateToDayNumber year month day = LAST_SDN.
Proof.
  assert (H32 : 32 <= 64) by lia.
  assert (Hs : supported 64 LAST_SDN)
    by (repeat split; vm_compute; discriminate).
  split; [exact H32 |]. split; [exact Hs |].
  exact (dateToDayNumber_SdnToTabIslamic 64 LAST_SDN H32 Hs).
Defined.

(** X6. In the supported range no two days have the same date. *)
Theorem SdnToTabIslamic_injective (zl_bits sdn1 sdn2 : Z) :
  32 <= zl_bits ->
  supported zl_bits sdn1 -> supported zl_bits sdn2 ->
  SdnToTabIslamic zl_bits sdn1 = SdnToTabIslamic zl_bits sdn2 ->
  sdn1 = sdn2.
Proof.
  intros Hb Hs1 Hs2 Heq.
  destruct (Z.lt_trichotomy sdn1 sdn2) as [Hlt | [Heq' | Hgt]];
    [| exact Heq' |].
  - destruct (SdnToTabIslamic_increasing zl_bits sdn1 sdn2 Hb Hs1 Hs2 Hlt)
      as (date1 & date2 & H1 & H2 & Hearlier).
    rewrite H1, H2 in Heq. injection Heq as ->.
    exfalso. exact (earlier_asymmetric _ _ Hearlier Hearlier).
  - destruct (SdnToTabIslamic_increasing zl_bits sdn2 sdn1 Hb Hs2 Hs1)
      as (date2 & date1 & H2 & H1 & Hearlier); [lia |].
    rewrite H1, H2 in Heq. injection Heq as ->.
    exfalso. exact (earlier_asymmetric _ _ Hearlier Hearlier).
Qed.

Lemma SdnToTabIslamic_injective_witness :
  32 <= 64 /\ supported 64 1948440 /\
  SdnToTabIslamic 64 1948440 = SdnToTabIslamic 64 1948440 /\
  1948440 = 1948440.
Proof.
  assert (H32 : 32 <= 64) by lia.
  assert (Hs : supported 64 1948440)
    by (repeat split; vm_compute; discriminate).
  split; [exact H32 |]. split; [exact Hs |]. split; [reflexivity |].
  exact (SdnToTabIslamic_injective 64 1948440 1948440 H32 Hs Hs eq_refl).
Defined.

(** X5. Every date of the calendar whose year fits an [int] and whose day
    number fits a [zend_long] is the result of the conversion at that day
    number. *)
Theorem SdnToTabIslamic_dateToDayNumber (zl_bits year month day : Z) :
  32 <= zl_bits ->
  validDate (year, month, day) ->
  year <= INT_MAX ->
  dateToDayNumber year month day <= ZEND_LONG_MAX zl_bits ->
  SdnToTabIslamic zl_bits (dateToDayNumber year month day) =
    Some (year, month, day).
Proof.
  intros Hb (Hy & Hm & Hd) Hint Hmax.
  set (c := (year - 1) / 30).
  set (ky := Z.to_nat ((year - 1) mod 30)).
  set (km := Z.to_nat (month - 1)).
  assert (Hmod : 0 <= (year - 1) mod 30 < 30)
    by (apply Z.mod_pos_bound; reflexivity).
  assert (Hdiv : year - 1 = 30 * c + (year - 1) mod 30)
    by (apply Z.div_mod; discriminate).
  assert (Hc : 0 <= c) by (apply Z.div_pos; lia).
  assert (Hky30 : (ky < 30)%nat) by (unfold ky; lia).
  assert (Hkm12 : (km < 12)%nat) by (unfold km; lia).
  assert (Hyear : year = c * 30 + (Z.of_nat ky + 1)) by (unfold ky; lia).
  assert (Hmonth : month = Z.of_nat km + 1) by (unfold km; lia).
  unfold monthLength in Hd.
  assert (Hpos : yearPosition year = Z.of_nat ky + 1)
    by (rewrite Hyear; apply yearPosition_index; exact Hky30).
  rewrite Hpos, Hmonth in Hd.
  destruct (yearEndDays_cases ky Hky30) as [Hspan Hlast].
  pose proof (yearEndDays_spans ky Hky30) as Hys.
  pose proof (monthEndDays_spans km Hkm12) as Hms.
  set (dayInYear := table_base monthEndDays km + (day - 1)).
  set (dayInCycle := table_base yearEndDays ky + dayInYear).
  assert (Hdy : table_base monthEndDays km <= dayInYear
                < nth km monthEndDays 0 /\
                dayInYear
                < nth ky yearEndDays 0 - table_base yearEndDays ky).
  { unfold dayInYear.
    destruct (monthEndDays_cases km Hkm12)
      as [(_ & Hbase & Hend & Hdays) | (Hlt & Hend & Hdays)];
      rewrite Hdays in Hd;
      destruct (isLeapPosition (Z.of_nat ky + 1)); lia. }
  assert (Hsdn : dateToDayNumber year month day =
                 ISLAMIC_SDN_OFFSET + (dayInCycle + c * 10631)).
  { unfold dateToDayNumber. fold c. rewrite Hpos, Hmonth.
    rewrite !baseDay_table_base.
    unfold dayInCycle, dayInYear, DAYS_PER_30_YEARS. lia. }
  assert (Hoff : dateToDayNumber year month day - ISLAMIC_SDN_OFFSET =
                 dayInCycle + c * DAYS_PER_30_YEARS)
    by (unfold DAYS_PER_30_YEARS; lia).
  assert (Hdc : 0 <= dayInCycle < DAYS_PER_30_YEARS)
    by (unfold dayInCycle, DAYS_PER_30_YEARS; lia).
  assert (Hq : (dateToDayNumber year month day - ISLAMIC_SDN_OFFSET)
               / DAYS_PER_30_YEARS = c).
  { rewrite Hoff, Z.div_add by discriminate.
    rewrite Z.div_small by exact Hdc. lia. }
  assert (Hr : (dateToDayNumber year month day - ISLAMIC_SDN_OFFSET)
               mod DAYS_PER_30_YEARS = dayInCycle).
  { rewrite Hoff, Z.mod_add by discriminate.
    apply Z.mod_small. exact Hdc. }
  assert (Hky : smallest_index dayInCycle yearEndDays ky)
    by (apply smallest_index_year; [exact Hky30 | unfold dayInCycle; lia]).
  assert (Hkm : smallest_index (dayInCycle - table_base yearEndDays ky)
                  monthEndDays km).
  { apply smallest_index_month; [exact Hkm12 |]. unfold dayInCycle. lia. }
  pose proof (SdnToTabIslamic_run zl_bits (dateToDayNumber year month day)
                ky km Hb) as Hrun.
  cbv zeta in Hrun. rewrite Hq, Hr in Hrun.
  rewrite Hrun; [| split; [unfold DAYS_PER_30_YEARS in *; lia | exact Hmax]
                 | exact Hky | exact Hkm].
  rewrite to_int_small by (unfold INT_MIN, INT_MAX in *; lia).
  f_equal. f_equal; [f_equal; lia |].
  unfold dayInCycle, dayInYear. lia.
Qed.

Lemma SdnToTabIslamic_dateToDayNumber_witness :
  32 <= 64 /\ validDate (1447, 12, 29) /\ 1447 <= INT_MAX /\
  dateToDayNumber 1447 12 29 <= ZEND_LONG_MAX 64 /\
  SdnToTabIslamic 64 (dateToDayNumber 1447 12 29) = Some (1447, 12, 29).
Proof.
  assert (H32 : 32 <= 64) by lia.
  assert (Hv : validDate (1447, 12, 29))
    by (repeat split; vm_compute; discriminate).
  assert (Hi : 1447 <= INT_MAX) by (vm_compute; discriminate).
  assert (Hz : dateToDayNumber 1447 12 29 <= ZEND_LONG_MAX 64)
    by (vm_compute; discriminate).
  split; [exact H32 |]. split; [exact Hv |]. split; [exact Hi |].
  split; [exact Hz |].
  exact (SdnToTabIslamic_dateToDayNumber 64 1447 12 29 H32 Hv Hi Hz).
Defined.

(** ** The 30-year cycle *)

(** X7. 10631 days later the date is the same day and month, 30 years on. *)
Theorem SdnToTabIslamic_cycle (zl_bits sdn : Z) :
  32 <= zl_bits ->
  ISLAMIC_SDN_OFFSET <= sdn ->
  supported zl_bits (sdn + 10631) ->
  exists year month day,
    SdnToTabIslamic zl_bits sdn = Some (year, month, day) /\
    SdnToTabIslamic zl_bits (sdn + 10631) = Some (year + 30, month, day).
Proof.
  intros Hb Hlo Hs2. pose proof Hs2 as (Hlo2 & Hhi2 & Hlast2).
  assert (Hs : supported zl_bits sdn) by (repeat split; lia).
  pose proof Hs as (_ & Hhi & _).
  destruct (SdnToTabIslamic_parts zl_bits sdn Hb (conj Hlo Hhi))
    as (c & d & ky & km & Hsdn & Hc & Hcdef & Hddef & Hky30 & Hkm12
        & Hky & Hkm & Hyb & Hmb & Hrun).
  assert (Hoff : sdn + 10631 - ISLAMIC_SDN_OFFSET =
                 sdn - ISLAMIC_SDN_OFFSET + 1 * DAYS_PER_30_YEARS)
    by (unfold DAYS_PER_30_YEARS; lia).
  assert (Hq : (sdn + 10631 - ISLAMIC_SDN_OFFSET) / DAYS_PER_30_YEARS = c + 1)
    by (rewrite Hoff, Z.div_add by discriminate; lia).
  assert (Hr : (sdn + 10631 - ISLAMIC_SDN_OFFSET) mod DAYS_PER_30_YEARS = d)
    by (rewrite Hoff, Z.mod_add by discriminate; lia).
  pose proof (SdnToTabIslamic_run zl_bits (sdn + 10631) ky km Hb
                (conj Hlo2 Hhi2)) as Hrun2.
  cbv zeta in Hrun2. rewrite Hq, Hr in Hrun2.
  specialize (Hrun2 Hky Hkm).
  assert (Hky1 := Hky). rewrite Hddef in Hky1.
  assert (Hky2 := Hky). rewrite <- Hr in Hky2.
  pose proof (supported_year_fits zl_bits sdn ky Hs Hky1) as Hfit1.
  pose proof (supported_year_fits zl_bits (sdn + 10631) ky Hs2 Hky2) as Hfit2.
  rewrite <- Hcdef in Hfit1. rewrite Hq in Hfit2.
  rewrite to_int_small in Hrun by exact Hfit1.
  rewrite to_int_small in Hrun2 by exact Hfit2.
  do 3 eexists. split; [exact Hrun |].
  rewrite Hrun2. f_equal. f_equal. f_equal. lia.
Qed.

Lemma SdnToTabIslamic_cycle_witness :
  32 <= 64 /\ ISLAMIC_SDN_OFFSET <= 1948440 /\
  supported 64 (1948440 + 10631) /\
  exists year month day,
    SdnToTabIslamic 64 1948440 = Some (year, month, day) /\
    SdnToTabIslamic 64 (1948440 + 10631) = Some (year + 30, month, day).
Proof.
  assert (H32 : 32 <= 64) by lia.
  assert (Hlo : ISLAMIC_SDN_OFFSET <= 1948440) by (vm_compute; discriminate).
  assert (Hs : supported 64 (1948440 + 10631))
    by (repeat split; vm_compute; discriminate).
  split; [exact H32 |]. split; [exact Hlo |]. split; [exact Hs |].
  exact (SdnToTabIslamic_cycle 64 1948440 H32 Hlo Hs).
Defined.

(** ** From one day to the next *)

(** The conversion at a supported SDN given by its cycle, its day in the
    cycle and the year and month that hold that day. *)
Lemma SdnToTabIslamic_at (zl_bits sdn q r : Z) (ky km : nat) :
  32 <= zl_bits ->
  supported zl_bits sdn ->
  sdn = ISLAMIC_SDN_OFFSET + (r + q * DAYS_PER_30_YEARS) ->
  (ky < 30)%nat -> (km < 12)%nat ->
  table_base yearEndDays ky <= r < nth ky yearEndDays 0 ->
  table_base monthEndDays km <= r - table_base yearEndDays ky
    < nth km monthEndDays 0 ->
  SdnToTabIslamic zl_bits sdn =
    Some (q * 30 + (Z.of_nat ky + 1), Z.of_nat km + 1,
          r - table_base yearEndDays ky - table_base monthEndDays km + 1).
Proof.
  intros Hb Hs Hsdn Hky30 Hkm12 Hyb Hmb.
  pose proof Hs as (Hlo & Hhi & _).
  pose proof (yearEndDays_spans ky Hky30) as Hys.
  assert (Hr : 0 <= r < DAYS_PER_30_YEARS) by (unfold DAYS_PER_30_YEARS; lia).
  assert (Hoff : sdn - ISLAMIC_SDN_OFFSET = r + q * DAYS_PER_30_YEARS) by lia.
  assert (Hq : (sdn - ISLAMIC_SDN_OFFSET) / DAYS_PER_30_YEARS = q).
  { rewrite Hoff, Z.div_add by discriminate.
    rewrite Z.div_small by exact Hr. lia. }
  assert (Hm : (sdn - ISLAMIC_SDN_OFFSET) mod DAYS_PER_30_YEARS = r).
  { rewrite Hoff, Z.mod_add by discriminate. apply Z.mod_small. exact Hr. }
  assert (Hky : smallest_index r yearEndDays ky)
    by (apply smallest_index_year; assumption).
  assert (Hkm : smallest_index (r - table_base yearEndDays ky) monthEndDays km)
    by (apply smallest_index_month; assumption).
  pose proof (SdnToTabIslamic_run zl_bits sdn ky km Hb (conj Hlo Hhi)) as Hrun.
  cbv zeta in Hrun. rewrite Hq, Hm in Hrun. specialize (Hrun Hky Hkm).
  assert (Hky' := Hky). rewrite <- Hm in Hky'.
  pose proof (supported_year_fits zl_bits sdn ky Hs Hky') as Hfit.
  rewrite Hq in Hfit.
  rewrite to_int_small in Hrun by exact Hfit. exact Hrun.
Qed.

Lemma date_eq (y1 m1 d1 y2 m2 d2 : Z) :
  y1 = y2 -> m1 = m2 -> d1 = d2 ->
  Some (y1, m1, d1) = Some (y2, m2, d2).
Proof. intros -> -> ->. reflexivity. Qed.

(** X8. For [sdn] at or after the epoch with [sdn + 1] still in the
    supported range (a [zend_long] no later than [LAST_SDN]), the date of
    [sdn + 1] is the next date of the calendar after the date of [sdn]:
    the next day of the month, or the first day of the next month after
    the last day of a month, or the first day of the next year after the
    last day of the 12th month. *)
Theorem SdnToTabIslamic_next_day (zl_bits sdn : Z) :
  32 <= zl_bits ->
  ISLAMIC_SDN_OFFSET <= sdn ->
  supported zl_bits (sdn + 1) ->
  exists date,
    SdnToTabIslamic zl_bits sdn = Some date /\
    SdnToTabIslamic zl_bits (sdn + 1) = Some (nextDate date).
Proof.
  intros Hb Hlo Hs2. pose proof Hs2 as (_ & Hhi2 & Hlast2).
  assert (Hs : supported zl_bits sdn) by (repeat split; lia).
  pose proof Hs as (_ & Hhi & _).
  destruct (SdnToTabIslamic_parts zl_bits sdn Hb (conj Hlo Hhi))
    as (c & d & ky & km & Hsdn & Hc & _ & _ & Hky30 & Hkm12
        & _ & _ & Hyb & Hmb & _).
  assert (Hsdn' : sdn = ISLAMIC_SDN_OFFSET + (d + c * DAYS_PER_30_YEARS))
    by (unfold DAYS_PER_30_YEARS; lia).
  rewrite (SdnToTabIslamic_at zl_bits sdn c d ky km Hb Hs Hsdn'
             Hky30 Hkm12 Hyb Hmb).
  eexists. split; [reflexivity |].
  destruct (yearEndDays_cases ky Hky30) as [Hspan Hlast].
  pose proof (yearEndDays_spans ky Hky30) as Hys.
  pose proof (monthEndDays_spans km Hkm12) as Hms.
  destruct (yearPosition_index c ky Hky30) as [Hpos _].
  unfold nextDate, monthLength. rewrite Hpos.
  set (leap := isLeapPosition (Z.of_nat ky + 1)) in *.
  destruct (Z.lt_ge_cases (d + 1) (nth ky yearEndDays 0)) as [Hsame | Hend].
  - (* the next day is in the same year *)
    destruct (Z.lt_ge_cases (d - table_base yearEndDays ky + 1)
                (nth km monthEndDays 0)) as [Hmsame | Hmend].
    + (* and in the same month *)
      rewrite (SdnToTabIslamic_at zl_bits (sdn + 1) c (d + 1) ky km Hb Hs2);
        try assumption; try (unfold DAYS_PER_30_YEARS; lia).
      assert (Hlt : d - table_base yearEndDays ky - table_base monthEndDays km
                    + 1 < monthDays leap (Z.of_nat km + 1)).
      { destruct (monthEndDays_cases km Hkm12)
          as [(_ & Hbase & Hlast12 & Hdays) | (Hlt & Hle & Hdays)];
          rewrite Hdays; destruct leap; lia. }
      apply Z.ltb_lt in Hlt. rewrite Hlt.
      apply date_eq; lia.
    + (* the month ends *)
      destruct (monthEndDays_cases km Hkm12)
        as [(_ & Hbase & Hlast12 & Hdays) | (Hlt & Hle & Hdays)];
        [destruct leap; lia |].
      pose proof (monthEndDays_spans (S km)) as Hms'.
      cbn [table_base] in Hms'.
      rewrite (SdnToTabIslamic_at zl_bits (sdn + 1) c (d + 1) ky (S km) Hb Hs2);
        try assumption;
        try (unfold DAYS_PER_30_YEARS; cbn [table_base]; lia).
      rewrite Hdays.
      destruct (Z.ltb_spec
                  (d - table_base yearEndDays ky - table_base monthEndDays km + 1)
                  (nth km monthEndDays 0 - table_base monthEndDays km));
        [lia |].
      destruct (Z.ltb_spec (Z.of_nat km + 1) 12); [| lia].
      cbn [table_base]. apply date_eq; lia.
  - (* the year ends: the day is the last of the 12th month *)
    destruct (monthEndDays_cases km Hkm12)
      as [(Hk & Hbase & Hlast12 & Hdays) | (Hlt & Hle & _)];
      [| destruct leap; lia].
    rewrite Hdays.
    assert (Hfull : (if leap then 30 else 29) =
                    d - table_base yearEndDays ky
                      - table_base monthEndDays km + 1)
      by (destruct leap; lia).
    rewrite Hfull, Z.ltb_irrefl.
    destruct (Z.ltb_spec (Z.of_nat km + 1) 12); [lia |].
    destruct Hlast as [(Hk29 & Hnth) | (Hk29 & Hnth)].
    + (* and so does the cycle *)
      rewrite (SdnToTabIslamic_at zl_bits (sdn + 1) (c + 1) 0 0 0 Hb Hs2);
        try (cbn [table_base nth yearEndDays monthEndDays]; lia);
        try (unfold DAYS_PER_30_YEARS; lia).
      cbn [table_base Z.of_nat]. apply date_eq; lia.
    + pose proof (yearEndDays_spans (S ky)) as Hys'.
      cbn [table_base] in Hys'.
      rewrite (SdnToTabIslamic_at zl_bits (sdn + 1) c (d + 1) (S ky) 0 Hb Hs2);
        try (cbn [table_base nth monthEndDays]; lia);
        try (unfold DAYS_PER_30_YEARS; lia).
      cbn [table_base]. apply date_eq; lia.
Qed.

Lemma SdnToTabIslamic_next_day_witness :
  32 <= 64 /\ ISLAMIC_SDN_OFFSET <= 1948793 /\ supported 64 (1948793 + 1) /\
  exists date,
    SdnToTabIslamic 64 1948793 = Some date /\
    SdnToTabIslamic 64 (1948793 + 1) = Some (nextDate date).
Proof.
  assert (H32 : 32 <= 64) by lia.
  assert (Hlo : ISLAMIC_SDN_OFFSET <= 1948793) by (vm_compute; discriminate).
  assert (Hs : supported 64 (1948793 + 1))
    by (repeat split; vm_compute; discriminate).
  split; [exact H32 |]. split; [exact Hlo |]. split; [exact Hs |].
  exact (SdnToTabIslamic_next_day 64 1948793 H32 Hlo Hs).
Defined.

(** ** Naming the month of a converted day *)

(** X11. The month the conversion returns for a [zend_long] always indexes
    [TabIslamicMonthName] inside the table, and the name found there is
    empty exactly for the days before the epoch. *)
Theorem TabIslamicMonthName_of_month (zl_bits sdn : Z) :
  32 <= zl_bits ->
  sdn <= ZEND_LONG_MAX zl_bits ->
  exists year month day name,
    SdnToTabIslamic zl_bits sdn = Some (year, month, day) /\
    aget TabIslamicMonthName month = Some name /\
    (name = ""%string <-> sdn < 1948440).
Proof.
  intros Hb Hhi.
  destruct (Z.lt_ge_cases sdn 1948440) as [Hlt | Hge].
  - exists 0, 0, 0, ""%string. split.
    + unfold SdnToTabIslamic, ISLAMIC_SDN_OFFSET.
      apply Z.ltb_lt in Hlt. rewrite Hlt. reflexivity.
    + split; [reflexivity | tauto].
  - destruct (SdnToTabIslamic_parts zl_bits sdn Hb (conj Hge Hhi))
      as (c & d & ky & km & _ & _ & _ & _ & _ & Hkm12 & _ & _ & _ & _ & Hrun).
    rewrite Hrun. clear Hrun.
    do 12 (destruct km as [| km];
           [do 4 eexists; split; [reflexivity |];
            split; [reflexivity | split; [discriminate | lia]] |]).
    lia.
Qed.

Lemma TabIslamicMonthName_of_month_witness :
  32 <= 64 /\ LAST_SDN <= ZEND_LONG_MAX 64 /\
  exists year month day name,
    SdnToTabIslamic 64 LAST_SDN = Some (year, month, day) /\
    aget TabIslamicMonthName month = Some name /\
    (name = ""%string <-> LAST_SDN < 1948440).
Proof.
  assert (H32 : 32 <= 64) by lia.
  assert (Hhi : LAST_SDN <= ZEND_LONG_MAX 64) by (vm_compute; discriminate).
  split; [exact H32 |]. split; [exact Hhi |].
  exact (TabIslamicMonthName_of_month 64 LAST_SDN H32 Hhi).
Defined.
